(** * Pending-changes store of the bruh.bot admin dashboard

    Shallow embedding of the frontend's pending-changes layer:
    - [src/frontend/src/contexts/config-changes-context.tsx] (the store),
    - the merge-for-display of [BotsPage]
      ([src/frontend/src/components/sections/cooldowns-section.tsx]),
    - the save handler of [src/frontend/src/app/routes/_main.tsx],
    - the request builder of [ConfigAPIClient]
      ([src/frontend/src/lib/api-client.ts]).

    JavaScript values are modelled by [jsval]; a plain JS object is an
    association list of its own enumerable properties in insertion order
    (the keys used here are never array indices, so insertion order is the
    order of [Object.keys]). *)

From Stdlib Require Import String Ascii List Bool ZArith Lia Permutation Sorted.
Import ListNotations.
Open Scope string_scope.
Set Warnings "-register-all".

(** ** JavaScript values and objects *)

Inductive jsval : Type :=
| JUndefined
| JNull
| JBool (b : bool)
| JNum (z : Z)
| JStr (s : string)
| JArr (xs : list jsval)
| JObj (o : list (string * jsval)).

Definition obj : Type := list (string * jsval).

(** [o[k]] as an optional own property ([None] is an absent key). *)
Fixpoint lookup (o : obj) (k : string) : option jsval :=
  match o with
  | [] => None
  | (k', v) :: r => if String.eqb k k' then Some v else lookup r k
  end.

(** [o[k]] as JS reads it: an absent key reads as [undefined]. *)
Definition get (o : obj) (k : string) : jsval :=
  match lookup o k with Some v => v | None => JUndefined end.

(** [o[k] = v]: an existing key keeps its position, a new key is appended. *)
Fixpoint obj_set (o : obj) (k : string) (v : jsval) : obj :=
  match o with
  | [] => [(k, v)]
  | (k', v') :: r =>
      if String.eqb k k' then (k', v) :: r else (k', v') :: obj_set r k v
  end.

(** [Object.keys(o)]. *)
Definition keys (o : obj) : list string := map fst o.

(** Copy the own properties of [src] into [acc], in order: the effect of a
    trailing [...src] in an object literal. *)
Definition spread_into (acc src : obj) : obj :=
  fold_left (fun a kv => obj_set a (fst kv) (snd kv)) src acc.

(** [...x] where [x] may be [undefined] (spreads nothing). *)
Definition spread_opt (acc : obj) (x : option obj) : obj :=
  match x with Some o => spread_into acc o | None => acc end.

(** Decimal rendering of an array index, the key [...arr] produces. *)
Fixpoint uint_digits (d : Decimal.uint) : string :=
  match d with
  | Decimal.Nil => EmptyString
  | Decimal.D0 r => String "0" (uint_digits r)
  | Decimal.D1 r => String "1" (uint_digits r)
  | Decimal.D2 r => String "2" (uint_digits r)
  | Decimal.D3 r => String "3" (uint_digits r)
  | Decimal.D4 r => String "4" (uint_digits r)
  | Decimal.D5 r => String "5" (uint_digits r)
  | Decimal.D6 r => String "6" (uint_digits r)
  | Decimal.D7 r => String "7" (uint_digits r)
  | Decimal.D8 r => String "8" (uint_digits r)
  | Decimal.D9 r => String "9" (uint_digits r)
  end.

Definition index_key (n : nat) : string := uint_digits (Nat.to_uint n).

Fixpoint indexed (n : nat) (xs : list jsval) : obj :=
  match xs with
  | [] => []
  | x :: r => (index_key n, x) :: indexed (S n) r
  end.

(** Own enumerable properties of a value, as spread by [{...v}]
    ([null], [undefined], booleans and numbers spread nothing; strings
    never reach a spread below, since both operands are checked to be
    [typeof 'object'] first or are objects by type). *)
Definition own_props (v : jsval) : obj :=
  match v with
  | JObj o => o
  | JArr xs => indexed 0 xs
  | _ => []
  end.

Definition typeof_object (v : jsval) : bool :=
  match v with JNull | JArr _ | JObj _ => true | _ => false end.

Definition truthy (v : jsval) : bool :=
  match v with
  | JUndefined | JNull => false
  | JBool b => b
  | JNum z => negb (Z.eqb z 0)
  | JStr s => negb (String.eqb s "")
  | JArr _ | JObj _ => true
  end.

Definition Array_isArray (v : jsval) : bool :=
  match v with JArr _ => true | _ => false end.

(** ** The store of [config-changes-context.tsx] *)

Module Store.

(** [interface PendingChanges { config?; aiConfig? }]; an absent slot is
    [None]. *)
Record PendingChanges : Type := mkPending {
  config : option obj;
  aiConfig : option obj
}.

(** [useState<PendingChanges>({})]. *)
Definition initial : PendingChanges := mkPending None None.

(** [addConfigChange(updates)]:
    [{ ...prev, config: { ...prev.config, ...updates } }]. *)
Definition addConfigChange (prev : PendingChanges) (updates : obj)
  : PendingChanges :=
  mkPending (Some (spread_into (spread_opt [] (config prev)) updates))
            (aiConfig prev).

(** The value both branches of the [forEach] body assign to
    [mergedAi[key]]. *)
Definition ai_merged_value (updateValue currentValue : jsval) : jsval :=
  if typeof_object updateValue && truthy currentValue
     && typeof_object currentValue && negb (Array_isArray updateValue)
  then JObj (spread_into (spread_into [] (own_props currentValue))
                         (own_props updateValue))
  else updateValue.

(** One iteration of the [forEach] in [addAIConfigChange]. *)
Definition ai_merge_key (updates : obj) (mergedAi : obj) (key : string) : obj :=
  let updateValue := get updates key in
  let currentValue := get mergedAi key in
  obj_set mergedAi key (ai_merged_value updateValue currentValue).

(** [prev.aiConfig || {}]. *)
Definition ai_slot (p : PendingChanges) : obj :=
  match aiConfig p with Some o => o | None => [] end.

(** [addAIConfigChange(updates)]. *)
Definition addAIConfigChange (prev : PendingChanges) (updates : obj)
  : PendingChanges :=
  let currentAi := ai_slot prev in
  let mergedAi := spread_into [] currentAi in
  mkPending (config prev)
            (Some (fold_left (ai_merge_key updates) (keys updates) mergedAi)).

(** [clearChanges()]: [setPendingChanges({})]. *)
Definition clearChanges (_ : PendingChanges) : PendingChanges := initial.

(** [Object.keys(x || {}).length > 0] for a slot. *)
Definition slot_nonempty (x : option obj) : bool :=
  match x with Some o => Nat.ltb 0 (length (keys o)) | None => false end.

(** The derived [hasPendingChanges]. *)
Definition hasPendingChanges (p : PendingChanges) : bool :=
  slot_nonempty (config p) || slot_nonempty (aiConfig p).

(** Store operations, as the provider exposes them to event handlers. *)
Inductive op : Type :=
| OpAddConfigChange (updates : obj)
| OpAddAIConfigChange (updates : obj)
| OpClearChanges.

Definition step (p : PendingChanges) (o : op) : PendingChanges :=
  match o with
  | OpAddConfigChange u => addConfigChange p u
  | OpAddAIConfigChange u => addAIConfigChange p u
  | OpClearChanges => clearChanges p
  end.

Definition run (p : PendingChanges) (ops : list op) : PendingChanges :=
  fold_left step ops p.

(** A state is reachable if some sequence of operations leads to it from
    the provider's initial state. *)
Definition reachable (p : PendingChanges) : Prop :=
  exists ops, run initial ops = p.

End Store.

(** ** Merge for display ([BotsPage] in [cooldowns-section.tsx]) *)

(** [if (!data?.config) return null;
     return { ...data.config, ...pendingChanges.config };] *)
Definition merge (data_config : option obj) (p : Store.PendingChanges)
  : option obj :=
  match data_config with
  | None => None
  | Some s => Some (spread_opt (spread_into [] s) (Store.config p))
  end.

(** The field a page reads from the merged config ([config.k]); [None] when
    there is no config to show or the key is absent. *)
Definition merged_field (data_config : option obj) (p : Store.PendingChanges)
  (k : string) : option jsval :=
  match merge data_config p with Some m => lookup m k | None => None end.

(** ** [ConfigAPIClient] ([api-client.ts]) *)

Module Api.

Record ConfigAPIClient : Type := mkClient {
  baseUrl : string;
  adminKey : string
}.

(** The [RequestInit] a method passes to [this.fetch]. *)
Record RequestInit : Type := mkInit {
  init_method : string;
  init_headers : option obj;
  init_body : option jsval  (* the value handed to [JSON.stringify] *)
}.

(** The request [this.fetch] hands to the global [fetch]. *)
Record Request : Type := mkRequest {
  url : string;
  method : string;
  headers : obj;
  body : option jsval
}.

(** [private async fetch(endpoint, options)]: the request it sends. *)
Definition fetch (cl : ConfigAPIClient) (endpoint : string) (options : RequestInit)
  : Request :=
  let headers :=
    spread_opt [("Content-Type", JStr "application/json");
                ("X-Admin-Key", JStr (adminKey cl))]
               (init_headers options) in
  mkRequest (baseUrl cl ++ endpoint) (init_method options) headers
            (init_body options).

(** Template-literal rendering of a number (the [userId] of the admin
    routes). *)
Definition Z_to_string (z : Z) : string :=
  match Z.to_int z with
  | Decimal.Pos u => uint_digits u
  | Decimal.Neg u => String "-" (uint_digits u)
  end.

(** The methods of [ConfigAPIClient] that call [this.fetch] themselves. *)
Inductive call : Type :=
| Health
| GetConfig
| UpdateConfig (updates : obj)
| ReloadConfig
| UpdateAIProvider (data : obj)
| AddAdmin (userId : Z)
| RemoveAdmin (userId : Z)
| GetVersion.

Definition request (cl : ConfigAPIClient) (c : call) : Request :=
  match c with
  | Health => fetch cl "/health" (mkInit "GET" (Some []) None)
  | GetConfig => fetch cl "/config" (mkInit "GET" None None)
  | UpdateConfig u => fetch cl "/config" (mkInit "PATCH" None (Some (JObj u)))
  | ReloadConfig => fetch cl "/config/reload" (mkInit "POST" None None)
  | UpdateAIProvider d =>
      fetch cl "/config/ai-provider" (mkInit "PATCH" None (Some (JObj d)))
  | AddAdmin id =>
      fetch cl "/config/admins"
            (mkInit "POST" None (Some (JObj [("userId", JNum id)])))
  | RemoveAdmin id =>
      fetch cl ("/config/admins/" ++ Z_to_string id) (mkInit "DELETE" None None)
  | GetVersion => fetch cl "/config/version" (mkInit "GET" None None)
  end.

(** The helper methods, which go through [getConfig] and [updateConfig]. *)
Inductive helper : Type :=
| SetInvisible (b : bool)
| SetMentionCooldown (seconds : Z)
| AddToBlockList (userId : string)
| RemoveFromBlockList (userId : string)
| AddToCooldownBypass (userId : string)
| RemoveFromCooldownBypass (userId : string).

Definition strs (l : list string) : jsval := JArr (map JStr l).

(** The calls a helper makes, given the list its [getConfig] returned
    ([config.config?.globalBlockList || []] or the bypass list). *)
Definition helper_calls (h : helper) (currentList : list string) : list call :=
  match h with
  | SetInvisible b => [UpdateConfig [("invisible", JBool b)]]
  | SetMentionCooldown s => [UpdateConfig [("mentionCooldown", JNum s)]]
  | AddToBlockList id =>
      if existsb (String.eqb id) currentList then [GetConfig]  (* then throws *)
      else [GetConfig;
            UpdateConfig [("globalBlockList", strs (currentList ++ [id]))]]
  | RemoveFromBlockList id =>
      [GetConfig;
       UpdateConfig [("globalBlockList",
                      strs (filter (fun x => negb (String.eqb x id)) currentList))]]
  | AddToCooldownBypass id =>
      if existsb (String.eqb id) currentList then [GetConfig]
      else [GetConfig;
            UpdateConfig [("cooldownBypassList", strs (currentList ++ [id]))]]
  | RemoveFromCooldownBypass id =>
      [GetConfig;
       UpdateConfig [("cooldownBypassList",
                      strs (filter (fun x => negb (String.eqb x id)) currentList))]]
  end.

(** Every public method of the client. *)
Inductive public_method : Type :=
| Direct (c : call)
| Helper (h : helper).

Definition requests (cl : ConfigAPIClient) (m : public_method)
  (currentList : list string) : list Request :=
  match m with
  | Direct c => [request cl c]
  | Helper h => map (request cl) (helper_calls h currentList)
  end.

End Api.

(** ** The context value as its consumers destructure it *)

Module Ctx.
Local Open Scope list_scope.

(** A member of the object literal [ConfigChangesProvider] passes as its
    [value] (lines 78-88 of [config-changes-context.tsx]): the state, the
    derived flag, and the three callbacks. *)
Inductive member : Type :=
| MPendingChanges (p : Store.PendingChanges)
| MHasPendingChanges (b : bool)
| MAddConfigChange
| MAddAIConfigChange
| MClearChanges.

(** [value={{ pendingChanges, hasPendingChanges, addConfigChange,
    addAIConfigChange, clearChanges }}] in state [p]. *)
Definition value (p : Store.PendingChanges) : list (string * member) :=
  [("pendingChanges", MPendingChanges p);
   ("hasPendingChanges", MHasPendingChanges (Store.hasPendingChanges p));
   ("addConfigChange", MAddConfigChange);
   ("addAIConfigChange", MAddAIConfigChange);
   ("clearChanges", MClearChanges)].

(** [const { name } = useConfigChanges()]: the member, or [None] when the
    object has no property of that name (the binding is [undefined]). *)
Fixpoint read (ctx : list (string * member)) (name : string) : option member :=
  match ctx with
  | [] => None
  | (k, m) :: r => if String.eqb name k then Some m else read r name
  end.

(** The truthiness of a destructured binding ([if (!hasPendingChanges)]). *)
Definition member_truthy (m : option member) : bool :=
  match m with
  | None => false
  | Some (MHasPendingChanges b) => b
  | Some _ => true
  end.

(** How a call [name(...args)] of a destructured binding ends: it throws a
    [TypeError] with the engine's message, or it returns a value and the
    provider's state the queued [setPendingChanges] leads to. *)
Inductive call_result : Type :=
| Threw (message : string)
| Returned (v : jsval) (p' : Store.PendingChanges).

(** [name(...args)] on the binding [m] in provider state [p]. A binding that
    is [undefined], a state or a boolean is not callable. The callbacks
    return [undefined]. A missing [updates] argument is [undefined]:
    [{ ...prev.config, ...undefined }] spreads nothing, while
    [Object.keys(undefined)] in the updater of [addAIConfigChange] throws when
    React computes the next state, so that update never lands. *)
Definition call (name : string) (m : option member) (args : list obj)
  (p : Store.PendingChanges) : call_result :=
  match m with
  | Some MAddConfigChange =>
      Returned JUndefined
        (Store.addConfigChange p (match args with u :: _ => u | [] => [] end))
  | Some MAddAIConfigChange =>
      Returned JUndefined
        (match args with u :: _ => Store.addAIConfigChange p u | [] => p end)
  | Some MClearChanges => Returned JUndefined (Store.clearChanges p)
  | _ => Threw (String.append name " is not a function")
  end.

End Ctx.

(** ** The save handler of [_main.tsx] *)

Module Save.
Local Open Scope list_scope.

(** How an awaited [mutateAsync] settles. *)
Inductive rejection : Type :=
| RejError (message : string)   (* an [Error] instance *)
| RejOther.                     (* any other thrown value *)

(** The backend's answer to each request: [None] resolves, [Some e] rejects. *)
Definition Backend : Type := Api.Request -> option rejection.

Inductive toast : Type :=
| ToastInfo (msg : string)
| ToastSuccess (msg : string)
| ToastError (msg : string).

Inductive event : Type :=
| ESetSaving (b : bool)
| ERequest (r : Api.Request)
| EToast (t : toast).

(** How the promise returned by the [async] handler settles. *)
Inductive settle : Type :=
| Resolves
| RejectsTypeError (message : string).

(** [useUpdateConfig()] ([use-config] hooks, concatenated into
    [cooldowns-section.tsx]): [mutateAsync(updates)] runs
    [apiClient.updateConfig(updates)], a [PATCH /config] with the updates as
    body. *)
Definition updateConfigMutation (cl : Api.ConfigAPIClient) (updates : jsval)
  : Api.Request :=
  Api.fetch cl "/config" (Api.mkInit "PATCH" None (Some updates)).

(** [useUpdateAIProvider()]: [mutateAsync(data)] runs
    [apiClient.updateAIProvider(data)], a [PATCH /config/ai-provider]. *)
Definition updateAIProviderMutation (cl : Api.ConfigAPIClient) (data : jsval)
  : Api.Request :=
  Api.fetch cl "/config/ai-provider" (Api.mkInit "PATCH" None (Some data)).

(** [v.k]: the property read, or the [TypeError] reading it on [null] or
    [undefined] throws. *)
Definition prop (v : jsval) (k : string) : string + jsval :=
  match v with
  | JUndefined =>
      inl (String.append "Cannot read properties of undefined (reading '"
             (String.append k "')"))
  | JNull =>
      inl (String.append "Cannot read properties of null (reading '"
             (String.append k "')"))
  | JObj o => inr (get o k)
  | _ => inr JUndefined
  end.

(** [Object.keys(v)] of a truthy value. *)
Definition object_keys (v : jsval) : list string :=
  match v with
  | JObj o => keys o
  | JArr xs => keys (indexed 0 xs)
  | JStr s => map index_key (seq 0 (String.length s))
  | _ => []
  end.

(** [if (slot && Object.keys(slot).length > 0) await mutateAsync(slot)]:
    the events and, if it rejected, the rejection. *)
Definition save_slot (backend : Backend) (mk : jsval -> Api.Request)
  (slot : jsval) : list event * option rejection :=
  if truthy slot && Nat.ltb 0 (length (object_keys slot))
  then let r := mk slot in ([ERequest r], backend r)
  else ([], None).

(** [error instanceof Error ? error.message : 'Failed to save configuration']. *)
Definition error_text (e : rejection) : string :=
  match e with
  | RejError m => m
  | RejOther => "Failed to save configuration"
  end.

(** The [try]/[catch] block on [changes], with the bindings [ctx] of the
    render: the resulting store state and its events. A [TypeError] raised
    inside the block is an [Error] and is caught like a rejection. *)
Definition save_try (cl : Api.ConfigAPIClient) (backend : Backend)
  (ctx : list (string * Ctx.member)) (changes : jsval)
  (p : Store.PendingChanges) : Store.PendingChanges * list event :=
  match prop changes "config" with
  | inl msg => (p, [EToast (ToastError msg)])
  | inr c =>
      let '(ev1, r1) := save_slot backend (updateConfigMutation cl) c in
      match r1 with
      | Some e => (p, ev1 ++ [EToast (ToastError (error_text e))])
      | None =>
          match prop changes "aiProvider" with
          | inl msg => (p, ev1 ++ [EToast (ToastError msg)])
          | inr a =>
              let '(ev2, r2) := save_slot backend (updateAIProviderMutation cl) a in
              match r2 with
              | Some e => (p, ev1 ++ ev2 ++ [EToast (ToastError (error_text e))])
              | None =>
                  match Ctx.call "clearChanges" (Ctx.read ctx "clearChanges") [] p with
                  | Ctx.Threw msg => (p, ev1 ++ ev2 ++ [EToast (ToastError msg)])
                  | Ctx.Returned _ p' =>
                      (p', ev1 ++ ev2
                             ++ [EToast (ToastSuccess "Configuration saved successfully")])
                  end
              end
          end
      end
  end.

(** [handleSave] run in provider state [p]: the final state, the events in
    order, and how its promise settles. The bindings are destructured from
    the provider's value at render; [getPendingChanges()] is called on
    line 66, before the [try]. *)
Definition handleSave (cl : Api.ConfigAPIClient) (backend : Backend)
  (p : Store.PendingChanges) : Store.PendingChanges * list event * settle :=
  let ctx := Ctx.value p in
  match Ctx.call "getPendingChanges" (Ctx.read ctx "getPendingChanges") [] p with
  | Ctx.Threw msg => (p, [], RejectsTypeError msg)
  | Ctx.Returned changes p1 =>
      if negb (Ctx.member_truthy (Ctx.read ctx "hasPendingChanges"))
      then (p1, [EToast (ToastInfo "No changes to save")], Resolves)
      else
        let '(p2, evs) := save_try cl backend ctx changes p1 in
        (p2, ESetSaving true :: evs ++ [ESetSaving false], Resolves)
  end.

(** The requests among the events. *)
Definition sent (evs : list event) : list Api.Request :=
  flat_map (fun e => match e with ERequest r => [r] | _ => [] end) evs.


End Save.

(** ** [useConfigChanges] *)

Module Hook.

(** The object literal the provider passes as its [value]. *)
Record ContextValue : Type := mkValue {
  pendingChanges : Store.PendingChanges;
  hasPendingChanges : bool
}.

(** [<ConfigChangesContext.Provider value={{ ... }}>] of
    [ConfigChangesProvider] in state [p]. *)
Definition provider_value (p : Store.PendingChanges) : ContextValue :=
  mkValue p (Store.hasPendingChanges p).

(** [useContext(ConfigChangesContext)]: the value of the nearest enclosing
    provider (innermost first in [enclosing]), else the default [undefined]
    given to [createContext]. The context object is not exported, so every
    provider of it is a [ConfigChangesProvider]. *)
Definition useContext (enclosing : list Store.PendingChanges)
  : option ContextValue :=
  match enclosing with
  | [] => None
  | p :: _ => Some (provider_value p)
  end.

Inductive result (A : Type) : Type :=
| Throw (message : string)
| Return (v : A).
Arguments Throw {A} _.
Arguments Return {A} _.

(** [useConfigChanges()]: [if (!context) throw new Error(...)]; an object
    literal is always truthy. *)
Definition useConfigChanges (enclosing : list Store.PendingChanges)
  : result ContextValue :=
  match useContext enclosing with
  | None => Throw "useConfigChanges must be used within ConfigChangesProvider"
  | Some context => Return context
  end.

End Hook.

(** ** [JSON.stringify] of an array of strings, and [Array.prototype.sort] *)

Module Json.
Local Open Scope list_scope.

Definition quote : ascii := ascii_of_nat 34.
Definition backslash : ascii := ascii_of_nat 92.

(** A lowercase hexadecimal digit, as in [\u001f]. *)
Definition hex_digit (n : nat) : ascii :=
  ascii_of_nat (if Nat.ltb n 10 then 48 + n else 87 + n).

(** One code unit of QuoteJSONString: the short escapes, [\u00XX] for the
    other control characters, and the unit itself otherwise. *)
Definition escape_char (c : ascii) : list ascii :=
  let n := nat_of_ascii c in
  if Nat.eqb n 8 then [backslash; "b"%char]
  else if Nat.eqb n 9 then [backslash; "t"%char]
  else if Nat.eqb n 10 then [backslash; "n"%char]
  else if Nat.eqb n 12 then [backslash; "f"%char]
  else if Nat.eqb n 13 then [backslash; "r"%char]
  else if Nat.eqb n 34 then [backslash; quote]
  else if Nat.eqb n 92 then [backslash; backslash]
  else if Nat.ltb n 32
  then [backslash; "u"%char; "0"%char; "0"%char;
        hex_digit (n / 16); hex_digit (n mod 16)]
  else [c].

Definition quote_string (s : list ascii) : list ascii :=
  quote :: flat_map escape_char s ++ [quote].

Fixpoint join_commas (l : list (list ascii)) : list ascii :=
  match l with
  | [] => []
  | x :: r => x ++ match r with [] => [] | _ => ","%char :: join_commas r end
  end.

Definition array_chars (l : list (list ascii)) : list ascii :=
  "["%char :: join_commas (map quote_string l) ++ ["]"%char].

(** [JSON.stringify(arr)] for an array of strings. *)
Definition stringify_strs (l : list string) : string :=
  string_of_list_ascii (array_chars (map list_ascii_of_string l)).

(** [arr.sort()] on strings: the default comparison orders by code units,
    shorter prefix first, which is [String.leb]. Any sorting algorithm gives
    the same array, since equal strings are identical; insertion sort is
    used here. *)
Fixpoint insert (x : string) (l : list string) : list string :=
  match l with
  | [] => [x]
  | y :: r => if String.leb x y then x :: l else y :: insert x r
  end.

Definition sort (l : list string) : list string := fold_right insert [] l.

End Json.

(** ** The admin list page ([_main/user-management.tsx]) *)

Module UserManagement.
Local Open Scope list_scope.

Definition is_digit (c : ascii) : bool :=
  let n := nat_of_ascii c in Nat.leb 48 n && Nat.leb n 57.

(** [/^\d+$/.test(s)]. *)
Definition digits_only (s : string) : bool :=
  match s with
  | EmptyString => false
  | _ => forallb is_digit (list_ascii_of_string s)
  end.

(** [AdminIdSchema.safeParse(s)]: the messages of the issues, in order;
    success is the empty list. Zod runs every check of a string schema. *)
Definition AdminIdSchema_issues (s : string) : list string :=
  (if Nat.eqb (String.length s) 18 then []
   else ["Admin ID must be exactly 18 characters"])
  ++ (if digits_only s then [] else ["Admin ID must contain only numbers"]).

(** The page's state: [admins], [addAdminId], [errors] and the shared
    pending-changes store. Toasts are not recorded. *)
Record UMState : Type := mkUM {
  admins : list string;
  addAdminId : string;
  errors : option (list string);
  pending : Store.PendingChanges
}.

Definition with_errors (st : UMState) (e : option (list string)) : UMState :=
  mkUM (admins st) (addAdminId st) e (pending st).

(** [handleAddAdmin()]. *)
Definition handleAddAdmin (st : UMState) : UMState :=
  let id := addAdminId st in
  match AdminIdSchema_issues id with
  | (_ :: _) as issues => with_errors st (Some issues)
  | [] =>
      if existsb (String.eqb id) (admins st)
      then with_errors st (Some ["This ID is already an admin"])
      else
        let newAdmins := admins st ++ [id] in
        mkUM newAdmins "" None
             (Store.addConfigChange (pending st)
                [("adminIds", Api.strs newAdmins)])
  end.

(** [handleRemoveAdmin(idToRemove)]. *)
Definition handleRemoveAdmin (st : UMState) (idToRemove : string) : UMState :=
  let newAdmins := filter (fun x => negb (String.eqb x idToRemove)) (admins st) in
  mkUM newAdmins (addAdminId st) (errors st)
       (Store.addConfigChange (pending st) [("adminIds", Api.strs newAdmins)]).

(** [data?.config?.adminIds || []]. *)
Definition original_of (data_adminIds : option (list string)) : list string :=
  match data_adminIds with Some l => l | None => [] end.

(** [handleUndo()]. *)
Definition handleUndo (data_adminIds : option (list string)) (st : UMState)
  : UMState :=
  let original := original_of data_adminIds in
  mkUM original (addAdminId st) None
       (Store.addConfigChange (pending st) [("adminIds", Api.strs original)]).

(** The memoised [hasChanges]. *)
Definition hasChanges (data_adminIds : option (list string)) (admins : list string)
  : bool :=
  let original := original_of data_adminIds in
  if negb (Nat.eqb (length original) (length admins)) then true
  else negb (String.eqb (Json.stringify_strs (Json.sort original))
                        (Json.stringify_strs (Json.sort admins))).

End UserManagement.

(** ** More of [api-client.ts] *)

Module ApiMore.





End ApiMore.

(** ** Other pages writing to the pending changes *)

Module Pages.
Local Open Scope list_scope.

(** [newMapping[key] = value] on an object created by [{}]: the key
    ["__proto__"] reaches the accessor inherited from [Object.prototype],
    whose setter ignores a value that is not an object or [null], so no own
    property is created; any other key is an own data property. *)
Definition assign (m : obj) (k : string) (v : jsval) : obj :=
  if String.eqb k "__proto__" then m else obj_set m k v.

(** [updateUsersToId(entries)] / [updateIdToUsers(entries)] of
    [UsersSection]: the mapping passed to [onUpdate]. *)
Definition build_mapping (entries : list (string * string)) : obj :=
  fold_left (fun m kv => if truthy (JStr (fst kv)) then assign m (fst kv) (JStr (snd kv))
                         else m)
            entries [].

(** [arr.filter((x, i) => f(i, x))]. *)
Fixpoint filteri {A : Type} (f : nat -> A -> bool) (i : nat) (l : list A) : list A :=
  match l with
  | [] => []
  | x :: r => if f i x then x :: filteri f (S i) r else filteri f (S i) r
  end.

(** [handleRemoveBypass(index)] of [CooldownsSection]: the new list. *)
Definition handleRemoveBypass (localBypassList : list Z) (index : nat) : list Z :=
  filteri (fun i _ => negb (Nat.eqb i index)) 0 localBypassList.

(** [handleAddBypass()]. *)
Definition handleAddBypass (localBypassList : list Z) : list Z :=
  localBypassList ++ [0%Z].

(** [handleUpdate(updates)] of [AIPage] ([_main/ai.tsx]), where [config] is
    the server's [aiConfig]:
    [addConfigChange({ aiConfig: { ...config, ...updates } })]. *)
Definition ai_handleUpdate (serverAi : obj) (p : Store.PendingChanges)
  (updates : obj) : Store.PendingChanges :=
  Store.addConfigChange p
    [("aiConfig", JObj (spread_into (spread_into [] serverAi) updates))].

(** [handleUpdateProvider(providerUpdates)] of [AIPage]:
    [addAIProviderChange(providerUpdates)] on the binding destructured from
    [useConfigChanges()] on line 15. The store state after the handler, and
    the message of the exception it throws, if any. *)
Definition handleUpdateProvider (p : Store.PendingChanges) (providerUpdates : obj)
  : Store.PendingChanges * option string :=
  match Ctx.call "addAIProviderChange" (Ctx.read (Ctx.value p) "addAIProviderChange")
                 [providerUpdates] p with
  | Ctx.Threw msg => (p, Some msg)
  | Ctx.Returned _ p' => (p', None)
  end.

End Pages.

(** ** Evaluations on small inputs *)

Example merge_example :
  merge (Some [("mentionCooldown", JNum 20); ("invisible", JBool false)])
        (Store.addConfigChange Store.initial [("mentionCooldown", JNum 45)])
  = Some [("mentionCooldown", JNum 45); ("invisible", JBool false)].
Proof. reflexivity. Qed.

Example ai_example :
  Store.aiConfig
    (Store.addAIConfigChange
       (Store.addAIConfigChange Store.initial [("a", JObj [("x", JNum 1)])])
       [("a", JObj [("y", JNum 2)])])
  = Some [("a", JObj [("x", JNum 1); ("y", JNum 2)])].
Proof. reflexivity. Qed.

Example health_example :
  Api.headers (Api.request (Api.mkClient "/api" "key") Api.Health)
  = [("Content-Type", JStr "application/json"); ("X-Admin-Key", JStr "key")].
Proof. reflexivity. Qed.

(** ** Lemmas on objects *)

Open Scope list_scope.

Ltac str_cases :=
  repeat match goal with
  | |- context [String.eqb ?a ?b] => destruct (String.eqb_spec a b); subst
  | H : context [String.eqb ?a ?b] |- _ => destruct (String.eqb_spec a b); subst
  end.

Lemma lookup_app (a b : obj) (k : string) :
  lookup (a ++ b) k =
  match lookup a k with Some v => Some v | None => lookup b k end.
Proof.
  induction a as [| [k' v'] r IH]; simpl; [reflexivity |].
  destruct (String.eqb k k'); [reflexivity | exact IH].
Qed.

Lemma lookup_notin (o : obj) (k : string) :
  ~ In k (keys o) -> lookup o k = None.
Proof.
  induction o as [| [k' v'] r IH]; simpl; intros Hn; [reflexivity |].
  str_cases; [exfalso; auto | apply IH; auto].
Qed.

Lemma lookup_obj_set (o : obj) (k k' : string) (v : jsval) :
  lookup (obj_set o k v) k' = if String.eqb k' k then Some v else lookup o k'.
Proof.
  induction o as [| [k0 v0] r IH]; simpl.
  - str_cases; reflexivity.
  - destruct (String.eqb_spec k k0) as [-> | Hne]; simpl.
    + str_cases; reflexivity.
    + rewrite IH. str_cases; congruence.
Qed.

Lemma lookup_spread_into (acc src : obj) (k : string) :
  lookup (spread_into acc src) k =
  match lookup (rev src) k with Some v => Some v | None => lookup acc k end.
Proof.
  revert acc; induction src as [| [k0 v0] r IH]; intros acc; simpl.
  - reflexivity.
  - unfold spread_into in *; simpl. rewrite IH, lookup_app.
    destruct (lookup (rev r) k); [reflexivity |].
    simpl. rewrite lookup_obj_set. str_cases; reflexivity.
Qed.

Lemma lookup_rev (o : obj) (k : string) :
  NoDup (keys o) -> lookup (rev o) k = lookup o k.
Proof.
  induction o as [| [k0 v0] r IH]; simpl; intros Hnd; [reflexivity |].
  inversion Hnd as [| ? ? Hnin Hnd']; subst.
  rewrite lookup_app, IH by exact Hnd'. simpl.
  str_cases.
  - rewrite lookup_notin by exact Hnin. reflexivity.
  - destruct (lookup r k); reflexivity.
Qed.

Lemma keys_obj_set_in (o : obj) (k x : string) (v : jsval) :
  In x (keys (obj_set o k v)) -> x = k \/ In x (keys o).
Proof.
  induction o as [| [k0 v0] r IH]; simpl.
  - intros [H | []]; auto.
  - str_cases; simpl; intros [H | H]; auto.
    destruct (IH H); auto.
Qed.

Lemma obj_set_nodup (o : obj) (k : string) (v : jsval) :
  NoDup (keys o) -> NoDup (keys (obj_set o k v)).
Proof.
  induction o as [| [k0 v0] r IH]; simpl; intros Hnd.
  - constructor; [intros [] | constructor].
  - inversion Hnd as [| ? ? Hnin Hnd']; subst.
    str_cases; simpl; constructor; auto.
    intros Hin. destruct (keys_obj_set_in r k k0 v Hin); auto.
Qed.

Lemma spread_into_nodup (acc src : obj) :
  NoDup (keys acc) -> NoDup (keys (spread_into acc src)).
Proof.
  revert acc; induction src as [| [k0 v0] r IH]; intros acc Hnd; simpl.
  - exact Hnd.
  - apply IH, obj_set_nodup, Hnd.
Qed.

Lemma obj_set_fresh (o : obj) (k : string) (v : jsval) :
  ~ In k (keys o) -> obj_set o k v = o ++ [(k, v)].
Proof.
  induction o as [| [k0 v0] r IH]; simpl; intros Hn; [reflexivity |].
  str_cases; [exfalso; auto | rewrite IH; auto].
Qed.

Lemma obj_set_not_nil (o : obj) (k : string) (v : jsval) : obj_set o k v <> [].
Proof.
  destruct o as [| [k0 v0] r]; simpl; [discriminate |].
  destruct (String.eqb k k0); discriminate.
Qed.

(** Spreading an object with distinct keys into a fresh literal copies it. *)
Lemma spread_into_app (acc src : obj) :
  NoDup (keys (acc ++ src)) -> spread_into acc src = acc ++ src.
Proof.
  revert acc; induction src as [| [k0 v0] r IH]; intros acc Hnd; simpl.
  - rewrite app_nil_r. reflexivity.
  - unfold spread_into in *; simpl.
    assert (Hk : ~ In k0 (keys acc)).
    { intros Hin. unfold keys in Hnd. rewrite map_app in Hnd. simpl in Hnd.
      apply NoDup_remove_2 in Hnd. apply Hnd, in_or_app. left; exact Hin. }
    rewrite obj_set_fresh by exact Hk.
    rewrite IH; [rewrite <- app_assoc; reflexivity |].
    rewrite <- app_assoc. exact Hnd.
Qed.

Lemma spread_copy (s : obj) : NoDup (keys s) -> spread_into [] s = s.
Proof. intros H. apply spread_into_app. exact H. Qed.

Lemma existsb_eqb_In (k : string) (l : list string) :
  existsb (String.eqb k) l = true <-> In k l.
Proof.
  rewrite existsb_exists. split.
  - intros [x [Hx Heq]]. apply String.eqb_eq in Heq. subst. exact Hx.
  - intros H. exists k. split; [exact H | apply String.eqb_refl].
Qed.

Lemma lookup_In_keys (o : obj) (k : string) (v : jsval) :
  lookup o k = Some v -> In k (keys o).
Proof.
  induction o as [| [k0 v0] r IH]; simpl; [discriminate |].
  str_cases; auto.
Qed.

(** ** The store *)

Module StoreFacts.
Import Store.

Lemma ai_fold_nodup (u : obj) (ks : list string) (m : obj) :
  NoDup (keys m) -> NoDup (keys (fold_left (ai_merge_key u) ks m)).
Proof.
  revert m; induction ks as [| key r IH]; intros m Hm; simpl; [exact Hm |].
  apply IH. unfold ai_merge_key. apply obj_set_nodup, Hm.
Qed.

(** Each key of [updates] is written once, from the value it had before
    the loop; the other keys keep theirs. *)
Lemma ai_fold_lookup (u : obj) (ks : list string) (m : obj) (k : string) :
  NoDup ks ->
  lookup (fold_left (ai_merge_key u) ks m) k =
  if existsb (String.eqb k) ks
  then Some (ai_merged_value (get u k) (get m k))
  else lookup m k.
Proof.
  revert m; induction ks as [| key r IH]; intros m Hnd; simpl; [reflexivity |].
  inversion Hnd as [| ? ? Hnin Hnd']; subst.
  rewrite IH by exact Hnd'. unfold ai_merge_key.
  destruct (String.eqb_spec k key) as [-> | Hne]; simpl.
  - assert (Hf : existsb (String.eqb key) r = false).
    { destruct (existsb (String.eqb key) r) eqn:E; [| reflexivity].
      apply existsb_eqb_In in E. contradiction. }
    rewrite Hf, lookup_obj_set, String.eqb_refl. reflexivity.
  - assert (Hg : get (obj_set m key (ai_merged_value (get u key) (get m key))) k
                 = get m k).
    { unfold get. rewrite lookup_obj_set.
      destruct (String.eqb_spec k key); [contradiction | reflexivity]. }
    rewrite Hg, lookup_obj_set.
    destruct (String.eqb_spec k key); [contradiction | reflexivity].
Qed.

(** Keys of an optional slot are distinct. *)
Definition slot_wf (x : option obj) : Prop :=
  match x with Some o => NoDup (keys o) | None => True end.

Definition wf (p : PendingChanges) : Prop :=
  slot_wf (config p) /\ slot_wf (aiConfig p).

Lemma step_wf (p : PendingChanges) (o : op) : wf p -> wf (step p o).
Proof.
  intros [Hc Ha]; destruct o as [u | u |]; simpl.
  - split; [| exact Ha]. simpl. apply spread_into_nodup.
    destruct (config p); simpl in *; [apply spread_into_nodup |]; constructor.
  - split; [exact Hc |]. simpl. apply ai_fold_nodup, spread_into_nodup.
    constructor.
  - split; exact I.
Qed.

Lemma run_wf (ops : list op) (p : PendingChanges) : wf p -> wf (run p ops).
Proof.
  revert p; induction ops as [| o r IH]; intros p Hp; simpl; [exact Hp |].
  apply IH, step_wf, Hp.
Qed.

Lemma reachable_ai_nodup (p : PendingChanges) :
  reachable p -> NoDup (keys (ai_slot p)).
Proof.
  intros [ops <-].
  destruct (run_wf ops initial (conj I I)) as [_ Ha].
  unfold ai_slot. destruct (aiConfig (run initial ops)); [exact Ha | constructor].
Qed.

End StoreFacts.

(** A slot is empty: absent, or the empty object. *)
Definition slot_empty (x : option obj) : Prop := x = None \/ x = Some [].

(** A slot holds the key [k]. *)
Definition slot_has_key (x : option obj) (k : string) : Prop :=
  match x with Some o => In k (keys o) | None => False end.

(** Top-level values that are not objects: [undefined], booleans, numbers and
    strings ([null] cannot occur in a [DeepPartial<AIConfig>]). *)
Definition is_scalar (v : jsval) : bool :=
  match v with JUndefined | JBool _ | JNum _ | JStr _ => true | _ => false end.

Lemma slot_nonempty_false (x : option obj) :
  Store.slot_nonempty x = false <-> slot_empty x.
Proof.
  unfold slot_empty; destruct x as [[| kv r] |]; simpl; split; intros H;
    auto; try discriminate; destruct H; discriminate.
Qed.

Lemma slot_nonempty_true (x : option obj) :
  Store.slot_nonempty x = true <-> exists k, slot_has_key x k.
Proof.
  destruct x as [[| [k v] r] |]; simpl; split; intros H; try discriminate.
  - destruct H as [k []].
  - exists k. left. reflexivity.
  - reflexivity.
  - destruct H as [k []].
Qed.

(** C1: merging an empty overlay for display gives back the server
    configuration: [merge(S, {}) == S], whether the generic slot is absent or
    the empty object. *)
Theorem merge_empty_patch_identity (S : obj) (p : Store.PendingChanges) :
  NoDup (keys S) ->
  Store.slot_nonempty (Store.config p) = false ->
  merge (Some S) p = Some S.
Proof.
  intros HS Hp. apply slot_nonempty_false in Hp.
  unfold merge. rewrite spread_copy by exact HS.
  destruct Hp as [Hp | Hp]; rewrite Hp; reflexivity.
Qed.

Lemma merge_empty_patch_identity_witness :
  NoDup (keys [("mentionCooldown", JNum 20); ("invisible", JBool false)])
  /\ merge (Some [("mentionCooldown", JNum 20); ("invisible", JBool false)])
           Store.initial
     = Some [("mentionCooldown", JNum 20); ("invisible", JBool false)].
Proof.
  assert (H : NoDup (keys [("mentionCooldown", JNum 20); ("invisible", JBool false)])).
  { simpl. constructor; [simpl; intros [H | []]; discriminate |].
    constructor; [intros [] | constructor]. }
  split; [exact H |].
  apply merge_empty_patch_identity; [exact H | reflexivity].
Defined.

(** C3: [addAIConfigChange] merges one level deep. From an empty AI slot,
    [addAIConfigChange({a:{x:1}})] then [addAIConfigChange({a:{y:2}})] leaves
    [{a:{x:1,y:2}}]; and from any reachable state, for every key of the
    update, an object value over an existing object has its fields merged
    into it, while a scalar or array value overwrites. *)
Theorem addAIConfigChange_merges_one_level :
  (forall prev : Store.PendingChanges,
     Store.ai_slot prev = [] ->
     Store.aiConfig
       (Store.addAIConfigChange
          (Store.addAIConfigChange prev [("a", JObj [("x", JNum 1)])])
          [("a", JObj [("y", JNum 2)])])
     = Some [("a", JObj [("x", JNum 1); ("y", JNum 2)])])
  /\
  (forall (prev : Store.PendingChanges) (updates : obj) (k : string) (u : jsval),
     Store.reachable prev ->
     NoDup (keys updates) ->
     lookup updates k = Some u ->
     (forall fu fc,
        u = JObj fu ->
        lookup (Store.ai_slot prev) k = Some (JObj fc) ->
        lookup (Store.ai_slot (Store.addAIConfigChange prev updates)) k
        = Some (JObj (spread_into (spread_into [] fc) fu)))
     /\
     (is_scalar u = true \/ Array_isArray u = true ->
        lookup (Store.ai_slot (Store.addAIConfigChange prev updates)) k
        = Some u)).
Proof.
  split.
  - intros [c a] Ha. unfold Store.ai_slot in Ha; simpl in Ha.
    destruct a as [a |]; [subst a |]; reflexivity.
  - intros prev updates k u Hr Hnd Hu.
    pose proof (StoreFacts.reachable_ai_nodup prev Hr) as Hai.
    assert (Hres : lookup (Store.ai_slot (Store.addAIConfigChange prev updates)) k
                   = Some (Store.ai_merged_value u (get (Store.ai_slot prev) k))).
    { unfold Store.addAIConfigChange, Store.ai_slot at 1; simpl.
      rewrite StoreFacts.ai_fold_lookup by exact Hnd.
      rewrite spread_copy by exact Hai.
      assert (Hin : existsb (String.eqb k) (keys updates) = true).
      { apply existsb_eqb_In, (lookup_In_keys _ _ u), Hu. }
      rewrite Hin. unfold get at 1. rewrite Hu. reflexivity. }
    rewrite Hres. split.
    + intros fu fc -> Hc. unfold get. rewrite Hc. reflexivity.
    + intros Hs. unfold Store.ai_merged_value.
      destruct u; simpl in Hs; simpl; try reflexivity;
        try (rewrite andb_false_r; reflexivity);
        exfalso; destruct Hs; discriminate.
Qed.

Lemma addAIConfigChange_merges_one_level_witness :
  Store.aiConfig
    (Store.addAIConfigChange
       (Store.addAIConfigChange Store.initial [("a", JObj [("x", JNum 1)])])
       [("a", JObj [("y", JNum 2)])])
  = Some [("a", JObj [("x", JNum 1); ("y", JNum 2)])]
  /\ lookup (Store.ai_slot
               (Store.addAIConfigChange
                  (Store.addAIConfigChange Store.initial
                     [("openai", JObj [("apiKey", JStr "k1")])])
                  [("openai", JObj [("preferredModel", JStr "m")])]))
            "openai"
     = Some (JObj [("apiKey", JStr "k1"); ("preferredModel", JStr "m")]).
Proof.
  split.
  - apply (proj1 addAIConfigChange_merges_one_level). reflexivity.
  - refine (proj1 (proj2 addAIConfigChange_merges_one_level
             (Store.addAIConfigChange Store.initial
                [("openai", JObj [("apiKey", JStr "k1")])])
             [("openai", JObj [("preferredModel", JStr "m")])] "openai"
             (JObj [("preferredModel", JStr "m")]) _ _ _)
             [("preferredModel", JStr "m")] [("apiKey", JStr "k1")]
             eq_refl _).
    + exists [Store.OpAddAIConfigChange [("openai", JObj [("apiKey", JStr "k1")])]].
      reflexivity.
    + simpl. constructor; [intros [] | constructor].
    + reflexivity.
    + reflexivity.
Defined.

(** C5: the display merge is a one-level overlay: a key of the generic patch
    reads the patch's value, any other key reads the server's. *)
Theorem merge_shallow_overlay (S P : obj) (p : Store.PendingChanges)
  (M : obj) (k : string) :
  NoDup (keys S) ->
  NoDup (keys P) ->
  Store.config p = Some P ->
  merge (Some S) p = Some M ->
  (forall v, lookup P k = Some v -> lookup M k = Some v)
  /\ (lookup P k = None -> lookup M k = lookup S k).
Proof.
  intros HS HP Hc Hm. unfold merge in Hm. rewrite Hc in Hm. simpl in Hm.
  injection Hm as <-.
  rewrite lookup_spread_into, lookup_rev by exact HP.
  rewrite spread_copy by exact HS.
  split.
  - intros v ->. reflexivity.
  - intros ->. reflexivity.
Qed.

Lemma merge_shallow_overlay_witness :
  lookup [("mentionCooldown", JNum 45); ("invisible", JBool false)] "invisible"
  = lookup [("mentionCooldown", JNum 20); ("invisible", JBool false)] "invisible".
Proof.
  refine (proj2 (merge_shallow_overlay
                   [("mentionCooldown", JNum 20); ("invisible", JBool false)]
                   [("mentionCooldown", JNum 45)]
                   (Store.addConfigChange Store.initial [("mentionCooldown", JNum 45)])
                   [("mentionCooldown", JNum 45); ("invisible", JBool false)]
                   "invisible" _ _ _ _) _).
  - simpl. constructor; [simpl; intros [H | []]; discriminate |].
    constructor; [intros [] | constructor].
  - simpl. constructor; [intros [] | constructor].
  - reflexivity.
  - reflexivity.
  - reflexivity.
Defined.

(** C6: [hasPendingChanges] is false exactly when both slots are empty
    objects or absent, and true exactly when one of them has a key; after
    [addConfigChange({})] on the empty store it stays false. *)
Theorem hasPendingChanges_iff_slots (p : Store.PendingChanges) :
  (Store.hasPendingChanges p = false <->
     slot_empty (Store.config p) /\ slot_empty (Store.aiConfig p))
  /\ (Store.hasPendingChanges p = true <->
        exists k, slot_has_key (Store.config p) k
                  \/ slot_has_key (Store.aiConfig p) k)
  /\ Store.hasPendingChanges (Store.addConfigChange Store.initial []) = false.
Proof.
  unfold Store.hasPendingChanges. split; [| split].
  - rewrite orb_false_iff, !slot_nonempty_false. reflexivity.
  - rewrite orb_true_iff, !slot_nonempty_true. split.
    + intros [[k H] | [k H]]; exists k; auto.
    + intros [k [H | H]]; [left | right]; exists k; exact H.
  - reflexivity.
Qed.

Lemma hasPendingChanges_iff_slots_witness :
  slot_empty (Store.config (Store.addConfigChange Store.initial []))
  /\ slot_empty (Store.aiConfig (Store.addConfigChange Store.initial [])).
Proof.
  apply (proj1 (hasPendingChanges_iff_slots
                  (Store.addConfigChange Store.initial []))).
  reflexivity.
Defined.

(** C8: the server snapshot is an input of the display merge only, never of
    a store operation: with [mentionCooldown = 20] fetched, after
    [addConfigChange({mentionCooldown:45})] there are pending changes and the
    page shows 45; after [clearChanges()] it shows 20 again. *)
Theorem pending_edit_then_clear_restores (S : obj) (p : Store.PendingChanges) :
  NoDup (keys S) ->
  lookup S "mentionCooldown" = Some (JNum 20) ->
  let p1 := Store.addConfigChange p [("mentionCooldown", JNum 45)] in
  Store.hasPendingChanges p1 = true
  /\ merged_field (Some S) p1 "mentionCooldown" = Some (JNum 45)
  /\ merged_field (Some S) (Store.clearChanges p1) "mentionCooldown"
     = Some (JNum 20).
Proof.
  intros HS H20 p1.
  split; [| split].
  - unfold p1, Store.hasPendingChanges, Store.addConfigChange, spread_into,
      Store.slot_nonempty.
    cbn [fold_left fst snd Store.config].
    destruct (obj_set (spread_opt [] (Store.config p)) "mentionCooldown" (JNum 45))
      eqn:E; [exfalso; exact (obj_set_not_nil _ _ _ E) | reflexivity].
  - unfold merged_field, merge, p1, Store.addConfigChange.
    cbn [spread_opt Store.config].
    rewrite lookup_spread_into, lookup_rev, lookup_spread_into; [reflexivity |].
    apply spread_into_nodup.
    destruct (Store.config p); [apply spread_into_nodup |]; constructor.
  - unfold merged_field, merge; simpl.
    rewrite spread_copy by exact HS. exact H20.
Qed.

Lemma pending_edit_then_clear_restores_witness :
  Store.hasPendingChanges
    (Store.addConfigChange Store.initial [("mentionCooldown", JNum 45)]) = true.
Proof.
  apply (pending_edit_then_clear_restores
           [("mentionCooldown", JNum 20); ("invisible", JBool false)]
           Store.initial).
  - simpl. constructor; [simpl; intros [H | []]; discriminate |].
    constructor; [intros [] | constructor].
  - reflexivity.
Defined.

(** ** The save handler *)

Module SaveFacts.
Import Save.

(** The headers [ConfigAPIClient.fetch] sends when the caller adds none. *)
Definition default_headers (cl : Api.ConfigAPIClient) : obj :=
  [("Content-Type", JStr "application/json");
   ("X-Admin-Key", JStr (Api.adminKey cl))].

Lemma request_headers (cl : Api.ConfigAPIClient) (c : Api.call) :
  Api.headers (Api.request cl c) = default_headers cl.
Proof. destruct c; reflexivity. Qed.

(** The provider's value has no [getPendingChanges], so the call on line 66
    throws before anything else of the handler runs, whatever the state and
    the backend. *)
Lemma handleSave_throws (cl : Api.ConfigAPIClient) (backend : Backend)
  (p : Store.PendingChanges) :
  handleSave cl backend p
  = (p, [], RejectsTypeError "getPendingChanges is not a function").
Proof. reflexivity. Qed.

End SaveFacts.

(** C2: with changes pending, a save sends neither slot and clears nothing:
    for every backend, [handleSave] sends no request at all (no
    [PATCH /config], no [PATCH /config/ai-provider]) and leaves both slots as
    they were, so the changes stay pending. The provider's value has no
    [getPendingChanges]; the call on line 66 throws a [TypeError] before the
    flag is even tested. *)
Theorem handleSave_sends_nothing (cl : Api.ConfigAPIClient)
  (backend : Save.Backend) (p : Store.PendingChanges) :
  Store.hasPendingChanges p = true ->
  let '(p', evs, _) := Save.handleSave cl backend p in
  Save.sent evs = []
  /\ Store.config p' = Store.config p
  /\ Store.aiConfig p' = Store.aiConfig p
  /\ Store.hasPendingChanges p' = true.
Proof.
  intros Hp. rewrite SaveFacts.handleSave_throws.
  split; [reflexivity |]. split; [reflexivity |]. split; [reflexivity | exact Hp].
Qed.

Lemma handleSave_sends_nothing_witness :
  Store.hasPendingChanges
    (Store.addConfigChange Store.initial [("mentionCooldown", JNum 45)]) = true
  /\ Save.sent (snd (fst (Save.handleSave (Api.mkClient "/api" "k") (fun _ => None)
                 (Store.addConfigChange Store.initial [("mentionCooldown", JNum 45)]))))
     = [].
Proof.
  assert (Hp : Store.hasPendingChanges
                 (Store.addConfigChange Store.initial [("mentionCooldown", JNum 45)])
               = true) by reflexivity.
  split; [exact Hp |].
  exact (proj1 (handleSave_sends_nothing (Api.mkClient "/api" "k") (fun _ => None)
                  (Store.addConfigChange Store.initial [("mentionCooldown", JNum 45)]) Hp)).
Defined.


(** C4: [AIPage]'s [handleUpdateProvider] stores no provider patch, in any
    state: the provider's value has no [addAIProviderChange], so the call
    throws a [TypeError] and the store keeps its state (which has no provider
    slot, only [config] and [aiConfig]). The openai update followed by the
    anthropic one, from the initial store, leaves nothing pending. *)
Theorem handleUpdateProvider_throws :
  (forall (p : Store.PendingChanges) (providerUpdates : obj),
     Pages.handleUpdateProvider p providerUpdates
     = (p, Some "addAIProviderChange is not a function"))
  /\
  (let '(p1, e1) :=
       Pages.handleUpdateProvider Store.initial
         [("provider", JStr "openai"); ("apiKey", JStr "k1")] in
   let '(p2, e2) :=
       Pages.handleUpdateProvider p1
         [("provider", JStr "anthropic"); ("apiKey", JStr "k2")] in
   p2 = Store.initial /\ Store.hasPendingChanges p2 = false
   /\ e1 = Some "addAIProviderChange is not a function"
   /\ e2 = Some "addAIProviderChange is not a function").
Proof.
  split; [intros p u; reflexivity |].
  split; [reflexivity |]. split; [reflexivity |]. split; reflexivity.
Qed.

(** ** The context hook *)

(** C9: outside any [ConfigChangesProvider] [useConfigChanges] throws; inside
    one it returns the value of the nearest provider and never throws. *)
Theorem useConfigChanges_outside_throws :
  Hook.useConfigChanges []
  = Hook.Throw "useConfigChanges must be used within ConfigChangesProvider"
  /\ (forall (p : Store.PendingChanges) (rest : list Store.PendingChanges),
        Hook.useConfigChanges (p :: rest) = Hook.Return (Hook.provider_value p)).
Proof. split; [| intros p rest]; reflexivity. Qed.

(** ** The admin-key header *)

(** C10: every request any public method of [ConfigAPIClient] sends,
    [health()] included, carries [X-Admin-Key] set to the client's admin
    key: the caller's headers are spread after the defaults and no caller
    passes one of that name. *)
Theorem every_request_has_admin_key (cl : Api.ConfigAPIClient)
  (m : Api.public_method) (currentList : list string) (r : Api.Request) :
  In r (Api.requests cl m currentList) ->
  lookup (Api.headers r) "X-Admin-Key" = Some (JStr (Api.adminKey cl)).
Proof.
  destruct m as [c | h]; simpl.
  - intros [<- | []]. rewrite SaveFacts.request_headers. reflexivity.
  - intros Hin. apply in_map_iff in Hin as [c [<- _]].
    rewrite SaveFacts.request_headers. reflexivity.
Qed.

Lemma every_request_has_admin_key_witness :
  lookup (Api.headers (Api.request (Api.mkClient "/api" "secret") Api.Health))
         "X-Admin-Key" = Some (JStr "secret").
Proof.
  apply (every_request_has_admin_key (Api.mkClient "/api" "secret")
           (Api.Direct Api.Health) []).
  simpl. left. reflexivity.
Defined.

(** ** [JSON.stringify] of string arrays is injective *)

Module JsonFacts.
Import Json.

Definition hex_val (c : ascii) : option nat :=
  let n := nat_of_ascii c in
  if Nat.leb 48 n && Nat.leb n 57 then Some (n - 48)
  else if Nat.leb 97 n && Nat.leb n 102 then Some (n - 87) else None.

(** Reads one code unit of a JSON string body; [None] at the closing quote. *)
Definition decode_char (l : list ascii) : option (ascii * list ascii) :=
  match l with
  | [] => None
  | c :: r =>
      if Ascii.eqb c backslash then
        match r with
        | d :: r' =>
            if Ascii.eqb d quote then Some (quote, r')
            else if Ascii.eqb d backslash then Some (backslash, r')
            else if Ascii.eqb d "b"%char then Some (ascii_of_nat 8, r')
            else if Ascii.eqb d "t"%char then Some (ascii_of_nat 9, r')
            else if Ascii.eqb d "n"%char then Some (ascii_of_nat 10, r')
            else if Ascii.eqb d "f"%char then Some (ascii_of_nat 12, r')
            else if Ascii.eqb d "r"%char then Some (ascii_of_nat 13, r')
            else if Ascii.eqb d "u"%char then
              match r' with
              | h1 :: h2 :: h3 :: h4 :: r'' =>
                  match hex_val h1, hex_val h2, hex_val h3, hex_val h4 with
                  | Some a, Some b, Some c', Some d' =>
                      Some (ascii_of_nat (((a * 16 + b) * 16 + c') * 16 + d'), r'')
                  | _, _, _, _ => None
                  end
              | _ => None
              end
            else None
        | [] => None
        end
      else if Ascii.eqb c quote then None
      else Some (c, r)
  end.

Fixpoint decode_str (fuel : nat) (l : list ascii)
  : option (list ascii * list ascii) :=
  match fuel with
  | 0 => None
  | S f =>
      match decode_char l with
      | Some (c, l') =>
          match decode_str f l' with
          | Some (s, rest) => Some (c :: s, rest)
          | None => None
          end
      | None =>
          match l with
          | x :: r => if Ascii.eqb x quote then Some ([], r) else None
          | [] => None
          end
      end
  end.

Fixpoint decode_items (fuel : nat) (l : list ascii) : option (list (list ascii)) :=
  match fuel with
  | 0 => None
  | S f =>
      match decode_str (length l) l with
      | Some (s, [c]) => if Ascii.eqb c "]"%char then Some [s] else None
      | Some (s, c :: d :: rest) =>
          if Ascii.eqb c ","%char && Ascii.eqb d quote
          then option_map (cons s) (decode_items f rest) else None
      | _ => None
      end
  end.

Definition decode_array (l : list ascii) : option (list (list ascii)) :=
  match l with
  | c :: d :: r' =>
      if Ascii.eqb c "["%char then
        if Ascii.eqb d "]"%char then
          match r' with [] => Some [] | _ => None end
        else if Ascii.eqb d quote then decode_items (length r') r'
        else None
      else None
  | _ => None
  end.

Lemma decode_escape_char (c : ascii) (rest : list ascii) :
  decode_char (escape_char c ++ rest) = Some (c, rest).
Proof. destruct c as [[] [] [] [] [] [] [] []]; reflexivity. Qed.

Lemma escape_char_nonempty (c : ascii) : 1 <= length (escape_char c).
Proof. destruct c as [[] [] [] [] [] [] [] []]; vm_compute; lia. Qed.

Lemma escape_length (s : list ascii) : length s <= length (flat_map escape_char s).
Proof.
  induction s as [| c s IH]; simpl; [lia |].
  rewrite length_app. pose proof (escape_char_nonempty c). lia.
Qed.

Lemma decode_str_escape (s rest : list ascii) (f : nat) :
  length s < f ->
  decode_str f (flat_map escape_char s ++ quote :: rest) = Some (s, rest).
Proof.
  revert f; induction s as [| c s IH]; intros f Hf;
    (destruct f as [| f]; [simpl in Hf; lia |]).
  - reflexivity.
  - simpl. rewrite <- app_assoc, decode_escape_char.
    rewrite IH by (simpl in Hf; lia). reflexivity.
Qed.

(** What follows the closing quote of the item before [l] in [array_chars]. *)
Definition items_tail (l : list (list ascii)) : list ascii :=
  match map quote_string l with
  | [] => []
  | _ => ","%char :: join_commas (map quote_string l)
  end ++ ["]"%char].

Lemma items_tail_cons (t : list ascii) (l : list (list ascii)) :
  items_tail (t :: l)
  = ","%char :: quote :: flat_map escape_char t ++ quote :: items_tail l.
Proof.
  unfold items_tail. cbn [map join_commas quote_string app].
  rewrite <- !app_assoc. reflexivity.
Qed.

Lemma array_chars_cons (s : list ascii) (l : list (list ascii)) :
  array_chars (s :: l)
  = "["%char :: quote :: flat_map escape_char s ++ quote :: items_tail l.
Proof.
  unfold array_chars, items_tail. cbn [map join_commas quote_string app].
  rewrite <- !app_assoc. reflexivity.
Qed.

Lemma items_tail_length (l : list (list ascii)) : length l < length (items_tail l).
Proof.
  induction l as [| t l IH]; [simpl; lia |].
  rewrite items_tail_cons. simpl. rewrite length_app. simpl. lia.
Qed.

Lemma decode_items_ok (l : list (list ascii)) (s : list ascii) (f : nat) :
  length l < f ->
  decode_items f (flat_map escape_char s ++ quote :: items_tail l) = Some (s :: l).
Proof.
  revert s f; induction l as [| t l IH]; intros s f Hf;
    (destruct f as [| f]; [simpl in Hf; lia |]); cbn [decode_items].
  - rewrite decode_str_escape.
    + reflexivity.
    + rewrite length_app. pose proof (escape_length s). simpl. lia.
  - rewrite decode_str_escape.
    + rewrite items_tail_cons. cbn [Ascii.eqb andb option_map].
      change (Ascii.eqb quote quote) with true. cbn [andb].
      rewrite IH by (simpl in Hf; lia). reflexivity.
    + rewrite length_app. pose proof (escape_length s). simpl. lia.
Qed.

Lemma decode_array_chars (l : list (list ascii)) :
  decode_array (array_chars l) = Some l.
Proof.
  destruct l as [| s l]; [reflexivity |].
  rewrite array_chars_cons. unfold decode_array.
  change (Ascii.eqb "["%char "["%char) with true.
  change (Ascii.eqb quote "]"%char) with false.
  change (Ascii.eqb quote quote) with true. cbn iota.
  apply decode_items_ok. rewrite length_app. simpl.
  pose proof (items_tail_length l). lia.
Qed.

Lemma array_chars_inj (l1 l2 : list (list ascii)) :
  array_chars l1 = array_chars l2 -> l1 = l2.
Proof.
  intros H. apply (f_equal decode_array) in H.
  rewrite !decode_array_chars in H. injection H as H. exact H.
Qed.

Lemma stringify_strs_inj (l1 l2 : list string) :
  stringify_strs l1 = stringify_strs l2 -> l1 = l2.
Proof.
  unfold stringify_strs. intros H.
  apply (f_equal list_ascii_of_string) in H.
  rewrite !list_ascii_of_string_of_list_ascii in H.
  apply array_chars_inj in H.
  apply (f_equal (map string_of_list_ascii)) in H.
  rewrite !map_map in H.
  rewrite !(map_ext _ (fun x => x) string_of_list_ascii_of_string), !map_id in H.
  exact H.
Qed.

End JsonFacts.

(** ** Sorting strings *)

Module SortFacts.
Import Json.


Lemma compare_le_trans (a b c : string) :
  String.compare a b <> Gt -> String.compare b c <> Gt ->
  String.compare a c <> Gt.
Proof.
  revert b c; induction a as [| x a IH]; intros b c;
    destruct b as [| y b]; destruct c as [| z c]; simpl; try congruence.
  unfold Ascii.compare.
  destruct (N.compare_spec (N_of_ascii x) (N_of_ascii y));
  destruct (N.compare_spec (N_of_ascii y) (N_of_ascii z));
  destruct (N.compare_spec (N_of_ascii x) (N_of_ascii z));
  cbn iota; intros Hab Hbc; try congruence; try lia.
  exact (IH b c Hab Hbc).
Qed.

Definition le (a b : string) : Prop := String.leb a b = true.

Lemma le_trans (a b c : string) : le a b -> le b c -> le a c.
Proof.
  unfold le, String.leb. intros H1 H2.
  assert (Hac : String.compare a c <> Gt).
  { apply compare_le_trans with b;
      [destruct (String.compare a b) | destruct (String.compare b c)];
      congruence. }
  destruct (String.compare a c); congruence.
Qed.

Lemma insert_perm (x : string) (l : list string) : Permutation (insert x l) (x :: l).
Proof.
  induction l as [| y r IH]; simpl; [reflexivity |].
  destruct (String.leb x y); [reflexivity |].
  rewrite IH. apply perm_swap.
Qed.

Lemma sort_perm (l : list string) : Permutation (sort l) l.
Proof.
  induction l as [| x r IH]; simpl; [reflexivity |].
  rewrite insert_perm, IH. reflexivity.
Qed.

Lemma insert_forall (P : string -> Prop) (x : string) (l : list string) :
  P x -> Forall P l -> Forall P (insert x l).
Proof.
  intros Hx; induction 1 as [| y r Hy Hr IH]; simpl; [constructor; auto |].
  destruct (String.leb x y); constructor; auto.
Qed.

Lemma insert_sorted (x : string) (l : list string) :
  StronglySorted le l -> StronglySorted le (insert x l).
Proof.
  induction 1 as [| y r Hr IH Hy]; simpl.
  - constructor; constructor.
  - destruct (String.leb x y) eqn:Exy.
    + constructor; [constructor; assumption |].
      constructor; [exact Exy |].
      eapply Forall_impl; [| exact Hy]. intros z Hz. exact (le_trans x y z Exy Hz).
    + constructor; [exact IH |].
      apply insert_forall; [| exact Hy].
      destruct (String.leb_total x y) as [H | H]; [congruence | exact H].
Qed.

Lemma sort_sorted (l : list string) : StronglySorted le (sort l).
Proof.
  induction l as [| x r IH]; simpl; [constructor |]. apply insert_sorted, IH.
Qed.

Lemma sorted_perm_eq (l1 l2 : list string) :
  StronglySorted le l1 -> StronglySorted le l2 -> Permutation l1 l2 -> l1 = l2.
Proof.
  revert l2; induction l1 as [| a r1 IH]; intros l2 H1 H2 Hp.
  - symmetry. apply Permutation_nil, Hp.
  - destruct l2 as [| b r2].
    + apply Permutation_sym, Permutation_nil in Hp. discriminate.
    + apply StronglySorted_inv in H1 as [H1 F1].
      apply StronglySorted_inv in H2 as [H2 F2].
      assert (Hab : a = b).
      { assert (Ha : In a (b :: r2)) by (apply (Permutation_in _ Hp); left; reflexivity).
        assert (Hb : In b (a :: r1))
          by (apply (Permutation_in _ (Permutation_sym Hp)); left; reflexivity).
        destruct Ha as [Ha | Ha]; [symmetry; exact Ha |].
        destruct Hb as [Hb | Hb]; [exact Hb |].
        rewrite Forall_forall in F1, F2.
        apply String.leb_antisym; [apply F1 | apply F2]; assumption. }
      subst b. f_equal. apply IH; auto.
      apply Permutation_cons_inv in Hp. exact Hp.
Qed.

Lemma sort_eq_iff (l1 l2 : list string) : sort l1 = sort l2 <-> Permutation l1 l2.
Proof.
  split.
  - intros H. rewrite <- (sort_perm l1), <- (sort_perm l2), H. reflexivity.
  - intros H. apply sorted_perm_eq; try apply sort_sorted.
    rewrite (sort_perm l1), (sort_perm l2). exact H.
Qed.

End SortFacts.

(** ** The admin list page *)

Module UMFacts.
Import UserManagement.

Lemma is_digit_iff (c : ascii) : is_digit c = true <-> 48 <= nat_of_ascii c <= 57.
Proof. unfold is_digit. rewrite andb_true_iff, !Nat.leb_le. reflexivity. Qed.

(** [addConfigChange(p, updates)] makes the generic slot read every key of
    [updates] (its last occurrence) and keeps the others. *)
Lemma config_add_lookup (p : Store.PendingChanges) (u : obj) :
  exists o, Store.config (Store.addConfigChange p u) = Some o /\
    forall k, lookup o k =
      match lookup (rev u) k with
      | Some v => Some v
      | None => match Store.config p with Some c => lookup (rev c) k | None => None end
      end.
Proof.
  eexists; split; [reflexivity |]. intros k.
  rewrite lookup_spread_into. destruct (lookup (rev u) k); [reflexivity |].
  destruct (Store.config p) as [c |]; simpl; [| reflexivity].
  rewrite lookup_spread_into. destruct (lookup (rev c) k); reflexivity.
Qed.

Lemma config_add_single (p : Store.PendingChanges) (k : string) (v : jsval) :
  exists o, Store.config (Store.addConfigChange p [(k, v)]) = Some o
            /\ lookup o k = Some v.
Proof.
  destruct (config_add_lookup p [(k, v)]) as [o [Ho Hl]].
  exists o. split; [exact Ho |]. rewrite Hl. simpl. rewrite String.eqb_refl. reflexivity.
Qed.

Lemma filter_In_neq (l : list string) (id x : string) :
  In x (filter (fun y => negb (String.eqb y id)) l) <-> In x l /\ x <> id.
Proof.
  rewrite filter_In, negb_true_iff, String.eqb_neq. reflexivity.
Qed.

Lemma filter_absent (l : list string) (id : string) :
  ~ In id l -> filter (fun y => negb (String.eqb y id)) l = l.
Proof.
  induction l as [| y r IH]; simpl; intros Hn; [reflexivity |].
  destruct (String.eqb_spec y id) as [-> | Hne]; [exfalso; auto | simpl].
  f_equal. apply IH. auto.
Qed.

Lemma filter_nodup (l : list string) (f : string -> bool) : NoDup l -> NoDup (filter f l).
Proof.
  induction 1 as [| y r Hy Hr IH]; simpl; [constructor |].
  destruct (f y); [| exact IH]. constructor; [| exact IH].
  rewrite filter_In. intros [H _]. contradiction.
Qed.

Lemma nodup_snoc (l : list string) (x : string) :
  NoDup l -> ~ In x l -> NoDup (l ++ [x]).
Proof.
  induction 1 as [| y r Hy Hr IH]; simpl; intros Hx.
  - constructor; [intros [] | constructor].
  - constructor.
    + rewrite in_app_iff. intros [H | [H | []]]; [contradiction |].
      apply Hx. left. symmetry. exact H.
    + apply IH. intros H. apply Hx. right. exact H.
Qed.

(** [hasChanges] compares the two lists as multisets. *)
Lemma hasChanges_false_perm (data_adminIds : option (list string))
  (admins : list string) :
  hasChanges data_adminIds admins = false
  <-> Permutation (original_of data_adminIds) admins.
Proof.
  unfold hasChanges.
  set (o := original_of data_adminIds).
  destruct (Nat.eqb (length o) (length admins)) eqn:El; cbn [negb].
  - rewrite negb_false_iff, String.eqb_eq, <- SortFacts.sort_eq_iff. split.
    + apply JsonFacts.stringify_strs_inj.
    + intros ->. reflexivity.
  - split; [discriminate |].
    intros Hp. apply Permutation_length in Hp.
    apply Nat.eqb_neq in El. contradiction.
Qed.

End UMFacts.

(** X1: [hasChanges] (which shows the Undo button and enables Save Changes)
    is false exactly when the edited admin list is a reordering of the
    server's [adminIds] (a missing list read as empty). *)
Theorem hasChanges_false_iff_permutation (data_adminIds : option (list string))
  (admins : list string) :
  UserManagement.hasChanges data_adminIds admins = false
  <-> Permutation (UserManagement.original_of data_adminIds) admins.
Proof. apply UMFacts.hasChanges_false_perm. Qed.

(** X2: [AdminIdSchema] accepts an id exactly when it is 18 characters long
    and every character is a decimal digit. *)
Theorem AdminIdSchema_accepts_iff (s : string) :
  UserManagement.AdminIdSchema_issues s = []
  <-> String.length s = 18
      /\ Forall (fun c => 48 <= nat_of_ascii c <= 57) (list_ascii_of_string s).
Proof.
  unfold UserManagement.AdminIdSchema_issues.
  assert (Hd : forall s, s <> EmptyString ->
            UserManagement.digits_only s = true
            <-> Forall (fun c => 48 <= nat_of_ascii c <= 57) (list_ascii_of_string s)).
  { intros [| c r] Hne; [congruence |]. unfold UserManagement.digits_only.
    rewrite forallb_forall, Forall_forall.
    split; intros H x Hx; apply UMFacts.is_digit_iff, H, Hx. }
  destruct (Nat.eqb_spec (String.length s) 18) as [Hl | Hl].
  - assert (Hne : s <> EmptyString) by (intros ->; discriminate).
    rewrite <- (Hd s Hne).
    destruct (UserManagement.digits_only s); simpl; split; intros H;
      try discriminate; try tauto; destruct H; discriminate.
  - destruct (UserManagement.digits_only s); simpl; split; intros H;
      try discriminate; destruct H; contradiction.
Qed.

(** X3: adding a well-formed id that is not yet an admin appends it to the
    list, clears the input and the errors, and records the whole new list as
    the pending [adminIds] (the AI slot of the store is left alone). *)
Theorem handleAddAdmin_accepts (st : UserManagement.UMState) :
  UserManagement.AdminIdSchema_issues (UserManagement.addAdminId st) = [] ->
  ~ In (UserManagement.addAdminId st) (UserManagement.admins st) ->
  let st' := UserManagement.handleAddAdmin st in
  UserManagement.admins st'
    = UserManagement.admins st ++ [UserManagement.addAdminId st]
  /\ UserManagement.addAdminId st' = ""
  /\ UserManagement.errors st' = None
  /\ (exists o, Store.config (UserManagement.pending st') = Some o
                /\ lookup o "adminIds" = Some (Api.strs (UserManagement.admins st')))
  /\ Store.aiConfig (UserManagement.pending st')
     = Store.aiConfig (UserManagement.pending st).
Proof.
  intros Hi Hn. cbv zeta. unfold UserManagement.handleAddAdmin. rewrite Hi.
  destruct (existsb (String.eqb (UserManagement.addAdminId st))
                    (UserManagement.admins st)) eqn:E.
  { apply existsb_eqb_In in E. contradiction. }
  cbn [UserManagement.admins UserManagement.addAdminId UserManagement.errors
       UserManagement.pending].
  split; [reflexivity |]. split; [reflexivity |]. split; [reflexivity |].
  split; [apply UMFacts.config_add_single | reflexivity].
Qed.

Lemma handleAddAdmin_accepts_witness :
  UserManagement.AdminIdSchema_issues "123456789012345678" = []
  /\ ~ In "123456789012345678" ["876543210987654321"]
  /\ UserManagement.admins
       (UserManagement.handleAddAdmin
          (UserManagement.mkUM ["876543210987654321"] "123456789012345678" None
                               Store.initial))
     = ["876543210987654321"; "123456789012345678"].
Proof.
  assert (Hi : UserManagement.AdminIdSchema_issues "123456789012345678" = [])
    by reflexivity.
  assert (Hn : ~ In "123456789012345678" ["876543210987654321"])
    by (simpl; intros [H | []]; discriminate).
  split; [exact Hi |]. split; [exact Hn |].
  exact (proj1 (handleAddAdmin_accepts
                  (UserManagement.mkUM ["876543210987654321"] "123456789012345678"
                                       None Store.initial) Hi Hn)).
Defined.

(** X5: the add and remove buttons never put a duplicate into the admin
    list: from a list without duplicates, both give a list without
    duplicates. *)
Theorem admin_buttons_keep_nodup (st : UserManagement.UMState) (id : string) :
  NoDup (UserManagement.admins st) ->
  NoDup (UserManagement.admins (UserManagement.handleAddAdmin st))
  /\ NoDup (UserManagement.admins (UserManagement.handleRemoveAdmin st id)).
Proof.
  intros Hnd. split.
  - unfold UserManagement.handleAddAdmin.
    destruct (UserManagement.AdminIdSchema_issues (UserManagement.addAdminId st));
      [| exact Hnd].
    destruct (existsb (String.eqb (UserManagement.addAdminId st))
                      (UserManagement.admins st)) eqn:E; [exact Hnd |].
    simpl. apply UMFacts.nodup_snoc; [exact Hnd |].
    intros Hin. apply existsb_eqb_In in Hin. congruence.
  - simpl. apply UMFacts.filter_nodup, Hnd.
Qed.

Lemma admin_buttons_keep_nodup_witness :
  NoDup ["111111111111111111"]
  /\ NoDup (UserManagement.admins
              (UserManagement.handleAddAdmin
                 (UserManagement.mkUM ["111111111111111111"] "222222222222222222"
                                      None Store.initial))).
Proof.
  assert (H : NoDup ["111111111111111111"]) by (constructor; [intros [] | constructor]).
  split; [exact H |].
  exact (proj1 (admin_buttons_keep_nodup
                  (UserManagement.mkUM ["111111111111111111"] "222222222222222222"
                                       None Store.initial) "" H)).
Defined.

(** X6: removing an admin keeps exactly the other admins (every occurrence
    of the id goes, a missing id leaves the list as it was), records the new
    list as the pending [adminIds], and keeps the input and the errors. *)
Theorem handleRemoveAdmin_spec (st : UserManagement.UMState) (id : string) :
  let st' := UserManagement.handleRemoveAdmin st id in
  (forall x, In x (UserManagement.admins st')
             <-> In x (UserManagement.admins st) /\ x <> id)
  /\ (~ In id (UserManagement.admins st)
      -> UserManagement.admins st' = UserManagement.admins st)
  /\ (exists o, Store.config (UserManagement.pending st') = Some o
                /\ lookup o "adminIds" = Some (Api.strs (UserManagement.admins st')))
  /\ UserManagement.addAdminId st' = UserManagement.addAdminId st
  /\ UserManagement.errors st' = UserManagement.errors st.
Proof.
  cbv zeta. unfold UserManagement.handleRemoveAdmin.
  cbn [UserManagement.admins UserManagement.addAdminId UserManagement.errors
       UserManagement.pending].
  split; [intros x; apply UMFacts.filter_In_neq |].
  split; [apply UMFacts.filter_absent |].
  split; [apply UMFacts.config_add_single |].
  split; reflexivity.
Qed.

(** X7: undo puts the server's [adminIds] back (so [hasChanges] turns
    false) but does so by recording them as a pending change: the store
    still has pending changes afterwards, holding the server list as
    [adminIds]. *)
Theorem handleUndo_keeps_pending (data_adminIds : option (list string))
  (st : UserManagement.UMState) :
  let st' := UserManagement.handleUndo data_adminIds st in
  UserManagement.admins st' = UserManagement.original_of data_adminIds
  /\ UserManagement.hasChanges data_adminIds (UserManagement.admins st') = false
  /\ UserManagement.errors st' = None
  /\ Store.hasPendingChanges (UserManagement.pending st') = true
  /\ (exists o, Store.config (UserManagement.pending st') = Some o
                /\ lookup o "adminIds"
                   = Some (Api.strs (UserManagement.original_of data_adminIds))).
Proof.
  cbv zeta. unfold UserManagement.handleUndo.
  cbn [UserManagement.admins UserManagement.addAdminId UserManagement.errors
       UserManagement.pending].
  destruct (UMFacts.config_add_single (UserManagement.pending st) "adminIds"
              (Api.strs (UserManagement.original_of data_adminIds))) as [o [Ho Hl]].
  split; [reflexivity |]. split.
  { apply UMFacts.hasChanges_false_perm. reflexivity. }
  split; [reflexivity |]. split.
  - unfold Store.hasPendingChanges. rewrite Ho. apply orb_true_iff. left.
    apply slot_nonempty_true. exists "adminIds". simpl.
    apply lookup_In_keys with (v := Api.strs (UserManagement.original_of data_adminIds)).
    exact Hl.
  - exists o. split; assumption.
Qed.


(** ** The client's helpers and errors *)

Module ApiFacts.

Lemma map_JStr_inj (l1 l2 : list string) : map JStr l1 = map JStr l2 -> l1 = l2.
Proof.
  intros H.
  revert l2 H; induction l1 as [| x r IH]; intros [| y r2] H; simpl in H;
    try discriminate; [reflexivity |].
  injection H as Hxy Hr. subst y. f_equal. apply IH, Hr.
Qed.

End ApiFacts.

(** X9: whatever list [getConfig] returned, the list an add helper sends
    holds the id and every id of the current list; when the current list had
    no duplicates, neither has the list sent: the helpers never put an id
    twice into the block list or the bypass list. *)
Theorem add_helpers_no_duplicate (h : Api.helper) (id : string)
  (cur l : list string) (key : string) :
  (h = Api.AddToBlockList id \/ h = Api.AddToCooldownBypass id) ->
  In (Api.UpdateConfig [(key, Api.strs l)]) (Api.helper_calls h cur) ->
  In id l /\ incl cur l /\ (NoDup cur -> NoDup l).
Proof.
  intros Hh Hin.
  assert (Hcase : existsb (String.eqb id) cur = false /\ l = cur ++ [id]).
  { destruct Hh as [-> | ->]; cbn [Api.helper_calls] in Hin;
      destruct (existsb (String.eqb id) cur);
      cbn [In] in Hin; (destruct Hin as [Hin | Hin]; [discriminate |]);
      try contradiction;
      destruct Hin as [Hin | []]; injection Hin as Hk Hl;
      (split; [reflexivity | symmetry; apply ApiFacts.map_JStr_inj; exact Hl]). }
  destruct Hcase as [E ->].
  assert (Hn : ~ In id cur) by (intros H; apply existsb_eqb_In in H; congruence).
  split; [apply in_app_iff; right; left; reflexivity |].
  split; [intros x Hx; apply in_app_iff; left; exact Hx |].
  intros Hnd. apply UMFacts.nodup_snoc; assumption.
Qed.

Lemma add_helpers_no_duplicate_witness :
  In "3" ["1"; "1"; "3"] /\ incl ["1"; "1"] ["1"; "1"; "3"].
Proof.
  refine (let H := add_helpers_no_duplicate (Api.AddToBlockList "3") "3" ["1"; "1"]
                     ["1"; "1"; "3"] "globalBlockList" (or_introl eq_refl) _ in
          conj (proj1 H) (proj1 (proj2 H))).
  simpl. right. left. reflexivity.
Defined.

(** X10: [removeFromBlockList] and [removeFromCooldownBypass] always read
    the configuration and send one [PATCH /config] whose list keeps exactly
    the other ids; an id that is not in the list leaves it as it was. *)
Theorem remove_helpers_behaviour (cl : Api.ConfigAPIClient) (id : string)
  (cur : list string) :
  exists l,
    Api.requests cl (Api.Helper (Api.RemoveFromBlockList id)) cur
      = [Api.request cl Api.GetConfig;
         Api.request cl (Api.UpdateConfig [("globalBlockList", Api.strs l)])]
    /\ Api.requests cl (Api.Helper (Api.RemoveFromCooldownBypass id)) cur
      = [Api.request cl Api.GetConfig;
         Api.request cl (Api.UpdateConfig [("cooldownBypassList", Api.strs l)])]
    /\ (forall x, In x l <-> In x cur /\ x <> id)
    /\ (~ In id cur -> l = cur).
Proof.
  exists (filter (fun x => negb (String.eqb x id)) cur).
  split; [reflexivity |]. split; [reflexivity |].
  split; [intros x; apply UMFacts.filter_In_neq | apply UMFacts.filter_absent].
Qed.



(** ** More of the store *)

Module StoreMore.

Lemma spread_into_nil (acc src : obj) :
  spread_into acc src = [] -> acc = [] /\ src = [].
Proof.
  revert acc; induction src as [| [k v] r IH]; intros acc H; simpl in H.
  - split; [exact H | reflexivity].
  - destruct (IH _ H) as [H1 _]. exfalso. exact (obj_set_not_nil _ _ _ H1).
Qed.

Lemma slot_nonempty_some (o : obj) : Store.slot_nonempty (Some o) = negb (Nat.eqb (length o) 0).
Proof. destruct o; reflexivity. Qed.

Lemma spread_into_empty_nonempty (o : obj) :
  negb (Nat.eqb (length (spread_into [] o)) 0) = negb (Nat.eqb (length o) 0).
Proof.
  destruct o as [| kv r]; [reflexivity |].
  destruct (spread_into [] (kv :: r)) eqn:E.
  - apply spread_into_nil in E. destruct E as [_ E]. discriminate.
  - reflexivity.
Qed.

Lemma ai_fold_not_nil (u : obj) (ks : list string) (m : obj) :
  m <> [] -> fold_left (Store.ai_merge_key u) ks m <> [].
Proof.
  revert m; induction ks as [| key r IH]; intros m Hm; simpl; [exact Hm |].
  apply IH. unfold Store.ai_merge_key. apply obj_set_not_nil.
Qed.

Lemma ai_fold_frame (u : obj) (ks : list string) (m : obj) (k : string) :
  ~ In k ks -> lookup (fold_left (Store.ai_merge_key u) ks m) k = lookup m k.
Proof.
  revert m; induction ks as [| key r IH]; intros m Hn; simpl; [reflexivity |].
  rewrite IH by (intros H; apply Hn; right; exact H).
  unfold Store.ai_merge_key. rewrite lookup_obj_set.
  destruct (String.eqb_spec k key) as [-> | _]; [exfalso; apply Hn; left; reflexivity |].
  reflexivity.
Qed.

End StoreMore.

(** X14: two successive [addConfigChange] calls leave the same pending
    state as one call with the updates of both, the later ones written
    last. *)
Theorem addConfigChange_compose (p : Store.PendingChanges) (u1 u2 : obj) :
  Store.addConfigChange (Store.addConfigChange p u1) u2
  = Store.addConfigChange p (u1 ++ u2).
Proof.
  unfold Store.addConfigChange. cbn [Store.config Store.aiConfig spread_opt].
  f_equal. f_equal.
  unfold spread_into at 4. rewrite fold_left_app. fold (spread_into (spread_opt [] (Store.config p)) u1).
  fold (spread_into (spread_into (spread_opt [] (Store.config p)) u1) u2).
  f_equal. apply spread_copy, spread_into_nodup.
  destruct (Store.config p) as [c |]; simpl; [apply spread_into_nodup |]; constructor.
Qed.

(** X15: an update with at least one key, through either [addConfigChange]
    or [addAIConfigChange], always makes [hasPendingChanges] true; an empty
    update never changes it. *)
Theorem add_changes_pending_flag (p : Store.PendingChanges) (u : obj) :
  (u <> [] ->
   Store.hasPendingChanges (Store.addConfigChange p u) = true
   /\ Store.hasPendingChanges (Store.addAIConfigChange p u) = true)
  /\ Store.hasPendingChanges (Store.addConfigChange p []) = Store.hasPendingChanges p
  /\ Store.hasPendingChanges (Store.addAIConfigChange p []) = Store.hasPendingChanges p.
Proof.
  unfold Store.hasPendingChanges, Store.addConfigChange, Store.addAIConfigChange.
  cbn [Store.config Store.aiConfig].
  split; [| split].
  - intros Hu. rewrite !StoreMore.slot_nonempty_some. split.
    + destruct (spread_into (spread_opt [] (Store.config p)) u) eqn:E; [| reflexivity].
      apply StoreMore.spread_into_nil in E. destruct E; contradiction.
    + destruct u as [| [k v] r]; [contradiction |]. simpl keys.
      cbn [fold_left]. apply orb_true_iff. right.
      destruct (fold_left (Store.ai_merge_key ((k, v) :: r)) (keys r)
                  (Store.ai_merge_key ((k, v) :: r)
                     (spread_into [] (Store.ai_slot p)) k)) eqn:E; [| reflexivity].
      exfalso. refine (StoreMore.ai_fold_not_nil _ _ _ _ E).
      unfold Store.ai_merge_key. apply obj_set_not_nil.
  - f_equal. rewrite StoreMore.slot_nonempty_some.
    destruct (Store.config p) as [c |]; cbn [spread_opt]; [| reflexivity].
    rewrite StoreMore.slot_nonempty_some. unfold spread_into at 1. cbn [fold_left].
    apply StoreMore.spread_into_empty_nonempty.
  - f_equal. cbn [keys map fold_left]. rewrite StoreMore.slot_nonempty_some.
    unfold Store.ai_slot. destruct (Store.aiConfig p) as [a |].
    + rewrite StoreMore.slot_nonempty_some. apply StoreMore.spread_into_empty_nonempty.
    + reflexivity.
Qed.

Lemma add_changes_pending_flag_witness :
  Store.hasPendingChanges
    (Store.addAIConfigChange Store.initial [("enabled", JBool false)]) = true.
Proof.
  exact (proj2 (proj1 (add_changes_pending_flag Store.initial [("enabled", JBool false)])
                  ltac:(discriminate))).
Defined.

(** X16: [addAIConfigChange] leaves every AI key that the update does not
    name as it was, and leaves the generic slot alone. *)
Theorem addAIConfigChange_frame (p : Store.PendingChanges) (u : obj) (k : string) :
  Store.reachable p ->
  ~ In k (keys u) ->
  lookup (Store.ai_slot (Store.addAIConfigChange p u)) k = lookup (Store.ai_slot p) k
  /\ Store.config (Store.addAIConfigChange p u) = Store.config p.
Proof.
  intros Hr Hk. split; [| reflexivity].
  unfold Store.addAIConfigChange, Store.ai_slot at 1. cbn [Store.aiConfig].
  rewrite StoreMore.ai_fold_frame by exact Hk.
  rewrite spread_copy by exact (StoreFacts.reachable_ai_nodup p Hr). reflexivity.
Qed.

Lemma addAIConfigChange_frame_witness :
  lookup (Store.ai_slot
            (Store.addAIConfigChange
               (Store.addAIConfigChange Store.initial [("model", JStr "m1")])
               [("enabled", JBool true)])) "model"
  = Some (JStr "m1").
Proof.
  refine (eq_trans (proj1 (addAIConfigChange_frame
            (Store.addAIConfigChange Store.initial [("model", JStr "m1")])
            [("enabled", JBool true)] "model" _ _)) _).
  - exists [Store.OpAddAIConfigChange [("model", JStr "m1")]]. reflexivity.
  - simpl. intros [H | []]. discriminate.
  - reflexivity.
Defined.

(** ** The pages *)

Module PagesFacts.

Lemma find_app {A : Type} (f : A -> bool) (l1 l2 : list A) :
  find f (l1 ++ l2) = match find f l1 with Some x => Some x | None => find f l2 end.
Proof.
  induction l1 as [| x r IH]; simpl; [reflexivity |].
  destruct (f x); [reflexivity | exact IH].
Qed.

Definition mapping_step (m : obj) (kv : string * string) : obj :=
  if truthy (JStr (fst kv)) then Pages.assign m (fst kv) (JStr (snd kv)) else m.

(** A key [newMapping[key] = value] never stores. *)
Definition dropped_key (k : string) : bool :=
  String.eqb k "" || String.eqb k "__proto__".

Lemma mapping_step_lookup (m : obj) (k0 v0 k : string) :
  lookup (mapping_step m (k0, v0)) k =
  if dropped_key k then lookup m k
  else if String.eqb k0 k then Some (JStr v0) else lookup m k.
Proof.
  unfold mapping_step, Pages.assign, dropped_key. cbn [fst snd truthy].
  destruct (String.eqb_spec k0 k) as [<- | Hne].
  - destruct (String.eqb k0 ""), (String.eqb k0 "__proto__"); cbn [negb orb];
      try reflexivity.
    rewrite lookup_obj_set, String.eqb_refl. reflexivity.
  - destruct (negb (String.eqb k0 "")), (String.eqb k0 "__proto__");
      try (destruct (String.eqb k "" || String.eqb k "__proto__"); reflexivity).
    rewrite lookup_obj_set.
    destruct (String.eqb_spec k k0) as [-> | _]; [congruence |].
    destruct (String.eqb k "" || String.eqb k "__proto__"); reflexivity.
Qed.

Lemma build_mapping_fold (entries : list (string * string)) (m : obj) (k : string) :
  lookup (fold_left mapping_step entries m) k =
  if dropped_key k then lookup m k
  else match find (fun kv => String.eqb (fst kv) k) (rev entries) with
       | Some kv => Some (JStr (snd kv))
       | None => lookup m k
       end.
Proof.
  revert m; induction entries as [| [k0 v0] r IH]; intros m; simpl.
  - destruct (dropped_key k); reflexivity.
  - rewrite IH, find_app, !mapping_step_lookup. simpl.
    destruct (dropped_key k); [reflexivity |].
    destruct (find (fun kv => String.eqb (fst kv) k) (rev r)); [reflexivity |].
    destruct (String.eqb k0 k); reflexivity.
Qed.

(** [filter((_, i) => i !== index)] from a start index [i]. *)
Lemma filteri_remove (l : list Z) (i n : nat) :
  Pages.filteri (fun j _ => negb (Nat.eqb j n)) i l
  = if Nat.ltb n i then l else firstn (n - i) l ++ skipn (S (n - i)) l.
Proof.
  revert i; induction l as [| x r IH]; intros i; simpl.
  - destruct (Nat.ltb n i); [reflexivity |]. destruct (n - i); reflexivity.
  - rewrite IH. destruct (Nat.eqb_spec i n) as [-> | Hne]; simpl.
    + rewrite Nat.ltb_irrefl, Nat.sub_diag.
      assert (Hlt : Nat.ltb n (S n) = true) by (apply Nat.ltb_lt; lia).
      rewrite Hlt. reflexivity.
    + destruct (Nat.ltb_spec n i) as [Hl | Hl].
      * assert (Hlt : Nat.ltb n (S i) = true) by (apply Nat.ltb_lt; lia).
        rewrite Hlt. reflexivity.
      * assert (Hlt : Nat.ltb n (S i) = false) by (apply Nat.ltb_ge; lia).
        rewrite Hlt. replace (n - i) with (S (n - S i)) by lia. reflexivity.
Qed.

End PagesFacts.

(** X17: the mapping [updateUsersToId] / [updateIdToUsers] hand to
    [onUpdate] has no entry for the empty key (skipped by [if (key)]) nor for
    ["__proto__"] (the assignment goes to the prototype setter, which ignores
    a string), and keeps, for any other key, the value of its last entry. *)
Theorem build_mapping_lookup (entries : list (string * string)) (k : string) :
  lookup (Pages.build_mapping entries) k =
  if String.eqb k "" || String.eqb k "__proto__" then None
  else match find (fun kv => String.eqb (fst kv) k) (rev entries) with
       | Some kv => Some (JStr (snd kv))
       | None => None
       end.
Proof.
  unfold Pages.build_mapping. fold PagesFacts.mapping_step.
  rewrite PagesFacts.build_mapping_fold. unfold PagesFacts.dropped_key.
  destruct (String.eqb k "" || String.eqb k "__proto__"); [reflexivity |].
  destruct (find _ (rev entries)); reflexivity.
Qed.

(** X18: the "add" button of the users section, which calls
    [updateUsersToId([...entries, ['', '']])], sends the same mapping as
    the entries alone: the new row is dropped before it reaches
    [onUpdate]. *)
Theorem add_empty_row_is_dropped (entries : list (string * string)) (v : string) :
  Pages.build_mapping (entries ++ [("", v)]) = Pages.build_mapping entries.
Proof.
  unfold Pages.build_mapping. rewrite fold_left_app. reflexivity.
Qed.

(** X19: removing the bypass entry at [index] keeps the entries before and
    after it in order; an index past the end leaves the list unchanged. *)
Theorem handleRemoveBypass_spec (l : list Z) (index : nat) :
  Pages.handleRemoveBypass l index = firstn index l ++ skipn (S index) l
  /\ (length l <= index -> Pages.handleRemoveBypass l index = l).
Proof.
  unfold Pages.handleRemoveBypass.
  assert (H : Pages.filteri (fun i _ => negb (Nat.eqb i index)) 0 l
              = firstn index l ++ skipn (S index) l).
  { rewrite PagesFacts.filteri_remove. rewrite Nat.sub_0_r. reflexivity. }
  rewrite H. split; [reflexivity |].
  intros Hl. rewrite firstn_all2 by exact Hl.
  rewrite skipn_all2 by lia. apply app_nil_r.
Qed.

Lemma handleRemoveBypass_spec_witness :
  Pages.handleRemoveBypass [1%Z; 2%Z] 5 = [1%Z; 2%Z].
Proof.
  exact (proj2 (handleRemoveBypass_spec [1%Z; 2%Z] 5) ltac:(simpl; lia)).
Defined.

(** X20: on the AI page each [handleUpdate] writes the whole server
    [aiConfig] overlaid with that one update as the pending [aiConfig]: after
    two updates the pending value holds only the second one, the first is
    lost. *)
Theorem ai_handleUpdate_last_wins (serverAi : obj) (p : Store.PendingChanges)
  (u1 u2 : obj) :
  exists o,
    Store.config (Pages.ai_handleUpdate serverAi (Pages.ai_handleUpdate serverAi p u1) u2)
    = Some o
    /\ lookup o "aiConfig" = Some (JObj (spread_into (spread_into [] serverAi) u2)).
Proof. apply UMFacts.config_add_single. Qed.


